(** * The web compose box: src/view/com/composer/text-input/TextInput.web.tsx

    A shallow embedding of the component and of its two tree converters.

    - JavaScript values that the file reads out of [attrs] records are
      [jsval]; a missing key (JavaScript's [undefined]) is [None].
    - A string is a sequence of code units; the model keeps the code units
      below 256, one [ascii] each.
    - A handler is a function to the list of calls it makes on the props
      and on the console, in the order it makes them.  For the paste
      handler, whose work continues in promise callbacks, the list holds
      the calls that are eventually made, grouped by clipboard item; the
      interleaving of promises is not modelled.
    - The update handler takes the suggestedLinks it closes over as an
      argument; which render that value comes from is the matter of the
      instances at the end of the definitions. *)

From Stdlib Require Import Ascii.
From stdpp Require Import base strings list gmap.

(** ** JavaScript values *)

(** The values of an attribute typed [any] that the model keeps: null,
    the booleans, the numbers and the strings.  A number is kept as the
    string that Number::toString gives for it: '0' for both zeros, 'NaN',
    '42', '1.5', '1e+21'; two numbers are the same value of a Set exactly
    when they have the same such string.  Arrays and objects, which are
    always truthy, are left out. *)
Inductive jsval :=
  | JNull
  | JBool (b : bool)
  | JNum (numeral : string)
  | JStr (s : string).

#[global] Instance jsval_eq_dec : EqDecision jsval.
Proof. solve_decision. Defined.

(** ToBoolean *)
Definition truthy (v : jsval) : bool :=
  match v with
  | JNull => false
  | JBool b => b
  | JNum n => negb (bool_decide (n = "0" ∨ n = "NaN"))
  | JStr s => negb (bool_decide (s = EmptyString))
  end.

(** ToString, as a template literal applies it *)
Definition ToString (v : jsval) : string :=
  match v with
  | JNull => "null"
  | JBool true => "true"
  | JBool false => "false"
  | JNum n => n
  | JStr s => s
  end.

(** [x || d], where [None] is [undefined] *)
Definition js_or (x : option jsval) (d : jsval) : jsval :=
  match x with
  | Some v => if truthy v then v else d
  | None => d
  end.

(** [s || ''] on a field typed [string | undefined] *)
Definition str_or_empty (s : option string) : string :=
  match s with
  | Some s => s
  | None => EmptyString
  end.

Definition LF : string := String "010"%char EmptyString.

(** WhiteSpace and LineTerminator code units below 256: TAB, LF, VT, FF,
    CR, SP and NBSP. *)
Definition isWhiteSpace (c : ascii) : bool :=
  bool_decide (nat_of_ascii c ∈ [9; 10; 11; 12; 13; 32; 160]).

Fixpoint trimStart (s : string) : string :=
  match s with
  | EmptyString => EmptyString
  | String c s' => if isWhiteSpace c then trimStart s' else s
  end.

Fixpoint trimEnd (s : string) : string :=
  match s with
  | EmptyString => EmptyString
  | String c s' =>
      let r := trimEnd s' in
      if isWhiteSpace c && bool_decide (r = EmptyString)
      then EmptyString
      else String c r
  end.

(** String.prototype.trim *)
Definition trim (s : string) : string := trimEnd (trimStart s).

(** ** Set objects and lodash's isEqual on them *)

(** A [Set] is its elements in insertion order. *)
Definition JSSet := list jsval.

Definition Set_add (s : JSSet) (v : jsval) : JSSet :=
  if bool_decide (v ∈ s) then s else s ++ [v].

(** [new Set(iterable)] adds the elements one by one. *)
Definition new_Set (l : list jsval) : JSSet := fold_left Set_add l [].

(** Take the first element equal to [v] out of [l]. *)
Fixpoint take_out (v : jsval) (l : list jsval) : option (list jsval) :=
  match l with
  | [] => None
  | x :: l' =>
      if bool_decide (v = x) then Some l'
      else (fun r => x :: r) <$> take_out v l'
  end.

(** The unordered comparison isEqual runs on the two element arrays:
    every element of the first is matched with an element of the second
    that no earlier element was matched with. *)
Fixpoint match_unordered (a b : list jsval) : bool :=
  match a with
  | [] => true
  | v :: a' =>
      match take_out v b with
      | Some b' => match_unordered a' b'
      | None => false
      end
  end.

Definition isEqual (a b : JSSet) : bool :=
  bool_decide (length a = length b) && match_unordered a b.

(** ** The editor's JSON document *)

(** The fields of a mark and of a node are read as [Mark.type m] and
    [JSONContent.type json], after the source's [m.type] and [json.type]. *)
Module Mark.
Record t := mk {
  type : string;
  attrs : option (gmap string jsval) }.
End Mark.
Abbreviation Mark := Mark.t.

Module JSONContent.
Unset Elimination Schemes.
Inductive t := mk {
  type : option string;
  attrs : option (gmap string jsval);
  content : option (list t);
  marks : option (list Mark);
  text : option string }.
Set Elimination Schemes.
End JSONContent.
Abbreviation JSONContent := JSONContent.t.

(** [o?.k] on an optional record *)
Definition attr (o : option (gmap string jsval)) (k : string) : option jsval :=
  o ≫= (fun m => m !! k).

Fixpoint editorJsonToText (json : JSONContent) : string :=
  let text := EmptyString in
  if bool_decide (JSONContent.type json = Some "doc"
                  ∨ JSONContent.type json = Some "paragraph") then
    let text :=
      match JSONContent.content json with
      | Some nodes =>
          if negb (length nodes =? 0)
          then fold_left (fun text node => text +:+ editorJsonToText node)
                 nodes text
          else text
      | None => text
      end in
    text +:+ LF
  else if bool_decide (JSONContent.type json = Some "hardBreak") then
    text +:+ LF
  else if bool_decide (JSONContent.type json = Some "text") then
    text +:+ str_or_empty (JSONContent.text json)
  else if bool_decide (JSONContent.type json = Some "mention") then
    text +:+ ("@" +:+ ToString (js_or (attr (JSONContent.attrs json) "id")
                                   (JStr EmptyString)))
  else text.

(** [marks.find(m => m.type === 'link')] *)
Definition find_link (ms : list Mark) : option Mark :=
  find (fun m => bool_decide (Mark.type m = "link")) ms.

Fixpoint editorJsonToLinks (json : JSONContent) : list jsval :=
  let links := [] in
  let links :=
    match JSONContent.content json with
    | Some nodes =>
        if negb (length nodes =? 0)
        then fold_left (fun links node => links ++ editorJsonToLinks node)
               nodes links
        else links
    | None => links
    end in
  let link := JSONContent.marks json ≫= find_link in
  match link ≫= (fun m => attr (Mark.attrs m) "href") with
  | Some href => if truthy href then links ++ [href] else links
  | None => links
  end.

(** ** The component *)

(** The callback props, and what a handler does with them. *)
Inductive prop :=
  | setRichText
  | onPhotoPasted
  | onPressPublish
  | onSuggestedLinksChanged.

#[global] Instance prop_eq_dec : EqDecision prop.
Proof. solve_decision. Defined.

(** RichText is a class of the rich-text library.  An instance is kept as
    the text its constructor was given and the methods called on it. *)
Inductive RichText_method :=
  | detectFacetsWithoutResolution_call.

Record RichText := {
  rt_text : string;
  rt_calls : list RichText_method }.

Definition new_RichText (text : string) : RichText :=
  {| rt_text := text; rt_calls := [] |}.

Definition detectFacetsWithoutResolution (rt : RichText) : RichText :=
  {| rt_text := rt_text rt;
     rt_calls := rt_calls rt ++ [detectFacetsWithoutResolution_call] |}.

(** An argument handed to a callback prop. *)
Inductive arg :=
  | ArgRichText (rt : RichText)
  | ArgSet (s : JSSet)
  | ArgString (s : string).

Inductive effect :=
  | Call (f : prop) (args : list arg)
  | console_error (err : string).

(** The argument lists of the calls made on [f], in order. *)
Definition calls_of (f : prop) (tr : list effect) : list (list arg) :=
  omap (fun e => match e with
                 | Call g args => if bool_decide (g = f) then Some args else None
                 | console_error _ => None
                 end) tr.

(** The value a callback sees in its [i]-th parameter; [None] is
    [undefined]. *)
Definition parameter (args : list arg) (i : nat) : option arg := args !! i.

(** *** The event emitter *)

(** The listeners, in the order they were added. *)
Definition EventEmitter := list (string * prop).

Definition new_EventEmitter : EventEmitter := [].

Definition addListener (e : EventEmitter) (event : string) (fn : prop)
  : EventEmitter :=
  e ++ [(event, fn)].

Definition removeListener (e : EventEmitter) (event : string) (fn : prop)
  : EventEmitter :=
  filter (fun l => l ≠ (event, fn)) e.

(** [emitter.emit(event, ...args)] calls every listener of [event] with
    [args]. *)
Definition emit (e : EventEmitter) (event : string) (args : list arg)
  : list effect :=
  (fun l => Call l.2 args) <$> filter (fun l => l.1 = event) e.

(** The two effects of the component, run when it mounts, and their
    clean-ups. *)
Definition mount (e : EventEmitter) : EventEmitter :=
  addListener (addListener e "publish" onPressPublish)
    "photo-pasted" onPhotoPasted.

Definition unmount (e : EventEmitter) : EventEmitter :=
  removeListener (removeListener e "publish" onPressPublish)
    "photo-pasted" onPhotoPasted.

(** *** The editor's options *)

Record LinkOptions := {
  protocols : list string;
  autolink : bool;
  linkOnPaste : bool }.

(** The mention extension's suggestion source is left out. *)
Inductive Extension :=
  | Document
  | Link (o : LinkOptions)
  | Mention (class : string)
  | Paragraph
  | Placeholder (placeholder : string)
  | Text
  | History
  | Hardbreak.

Definition extensions (placeholder : string) : list Extension :=
  [ Document;
    Link {| protocols := ["http"; "https"];
            autolink := true;
            linkOnPaste := false |};
    Mention "mention";
    Paragraph;
    Placeholder placeholder;
    Text;
    History;
    Hardbreak ].

(** The Link options among a list of extensions. *)
Definition link_options (exts : list Extension) : list LinkOptions :=
  omap (fun x => match x with Link o => Some o | _ => None end) exts.

(** *** Key presses *)

Record KeyboardEvent := {
  metaKey : bool;
  ctrlKey : bool;
  code : string }.

Definition handleKeyDown (emitter : EventEmitter) (event : KeyboardEvent)
  : list effect :=
  if (metaKey event || ctrlKey event) && bool_decide (code event = "Enter")
  then emit emitter "publish" []
  else [].

(** *** Updates *)

Record Editor := {
  getJSON : JSONContent;
  isFocused : bool }.

Definition onUpdate (suggestedLinks : JSSet) (editorProp : Editor)
  : list effect :=
  let json := getJSON editorProp in
  let newRt := new_RichText (trim (editorJsonToText json)) in
  let newRt := detectFacetsWithoutResolution newRt in
  let newSuggestedLinks := new_Set (editorJsonToLinks json) in
  Call setRichText [ArgRichText newRt]
  :: (if negb (isEqual newSuggestedLinks suggestedLinks)
      then [Call onSuggestedLinksChanged [ArgSet newSuggestedLinks]]
      else []).

(** *** The imperative handle *)

(** What the handle's functions can act on: the emitter and the editor. *)
Record State := {
  st_emitter : EventEmitter;
  st_editor : Editor }.

Record TextInputRef := {
  focus : State -> State * list effect;
  blur : State -> State * list effect }.

Definition imperativeHandle : TextInputRef :=
  {| focus := fun st => (st, []);
     blur := fun st => (st, []) |}.

(** *** Pasting *)

(** A Blob is kept as its bytes and its media type; a File is a Blob. *)
Record Blob := {
  blob_bytes : string;
  blob_type : string }.

Definition isPrintable (c : ascii) : bool :=
  bool_decide (32 ≤ nat_of_ascii c ≤ 126).

Definition toLower (c : ascii) : ascii :=
  if bool_decide (65 ≤ nat_of_ascii c ≤ 90)
  then ascii_of_nat (nat_of_ascii c + 32)
  else c.

Fixpoint string_forall (p : ascii -> bool) (s : string) : bool :=
  match s with
  | EmptyString => true
  | String c s' => p c && string_forall p s'
  end.

Fixpoint string_map (f : ascii -> ascii) (s : string) : string :=
  match s with
  | EmptyString => EmptyString
  | String c s' => String (f c) (string_map f s')
  end.

(** [new Blob([part], {type})]: the bytes of the part; the type in lower
    case, or empty when it has a code unit outside U+0020..U+007E. *)
Definition new_Blob (part : Blob) (type : string) : Blob :=
  {| blob_bytes := blob_bytes part;
     blob_type := if string_forall isPrintable type
                  then string_map toLower type
                  else EmptyString |}.

(** What the paste handler calls outside this file: two helpers of
    lib/media/util and the browser's fetch.  A promise that rejects is a
    [None] or an [inr]. *)
Record Platform := {
  isUriImage : string -> bool;
  (** [fetch(uri)] followed by [response.blob()] *)
  fetch_blob : string -> option Blob;
  (** resolves with a data URI or rejects with an error *)
  blobToDataUri : Blob -> string + string }.

Module DataTransferItem.
Record t := mk {
  kind : string;
  type : string;
  (** the string the callback of [getAsString] is called with; [None]
      when it is never called *)
  getAsString : option string;
  (** [None] is [null] *)
  getAsFile : option Blob }.
End DataTransferItem.
Abbreviation DataTransferItem := DataTransferItem.t.

Record DataTransfer := {
  items : list DataTransferItem }.

Record ClipboardEvent := {
  clipboardData : option DataTransfer }.

(** [promise.then(onFulfilled, onRejected)] on a settled promise *)
Definition promise_then (r : string + string)
    (onFulfilled onRejected : string -> list effect) : list effect :=
  match r with
  | inl v => onFulfilled v
  | inr err => onRejected err
  end.

Section Paste.
Variable P : Platform.

(** The loop body of [getImageFromUri] is two [if] statements; each is
    given the item and the callback. *)
Definition text_plain_branch (item : DataTransferItem)
    (callback : string -> list effect) : list effect :=
  if bool_decide (DataTransferItem.type item = "text/plain") then
    match DataTransferItem.getAsString item with
    | Some itemString =>
        if isUriImage P itemString then
          match fetch_blob P itemString with
          | Some blob =>
              promise_then (blobToDataUri P blob) callback
                (fun err => [console_error err])
          | None => []
          end
        else []
    | None => []
    end
  else [].

Definition file_branch (item : DataTransferItem)
    (callback : string -> list effect) : list effect :=
  if bool_decide (DataTransferItem.kind item = "file") then
    match DataTransferItem.getAsFile item with
    | Some file =>
        promise_then
          (blobToDataUri P (new_Blob file (DataTransferItem.type item)))
          callback
          (fun err => [console_error err])
    | None => []
    end
  else [].

Definition getImageFromUri (items : list DataTransferItem)
    (callback : string -> list effect) : list effect :=
  fold_left
    (fun tr item =>
       tr ++ text_plain_branch item callback ++ file_branch item callback)
    items [].

Definition handlePaste (emitter : EventEmitter) (event : ClipboardEvent)
  : list effect :=
  match clipboardData event with
  | None => []
  | Some dt =>
      getImageFromUri (items dt)
        (fun uri => emit emitter "photo-pasted" [ArgString uri])
  end.
End Paste.

(** The emitter of the mounted component. *)
Definition mounted : EventEmitter := mount new_EventEmitter.

(** The callback the paste handler gives to [getImageFromUri], on the
    mounted component. *)
Definition photo_pasted (uri : string) : list effect :=
  emit mounted "photo-pasted" [ArgString uri].

(** The key combination that publishes. *)
Definition publish_shortcut (event : KeyboardEvent) : Prop :=
  (metaKey event = true ∨ ctrlKey event = true) ∧ code event = "Enter".

(** ** The converters as the specification words them *)

(** The children of a node; none when [content] is missing. *)
Definition children (json : JSONContent) : list JSONContent :=
  default [] (JSONContent.content json).

(** The concatenation of a list of strings. *)
Definition join (l : list string) : string :=
  foldr String.append EmptyString l.

(** The text of a node as the specification describes it: children's
    texts and a newline for 'doc' and 'paragraph', a newline for
    'hardBreak', the text field for 'text', '@' and the id for 'mention'
    ('@' alone when the id is absent or empty), nothing otherwise. *)
Definition absent_or_empty (id : option jsval) : bool :=
  match id with
  | None | Some JNull => true
  | Some (JStr s) => bool_decide (s = EmptyString)
  | Some (JBool _) | Some (JNum _) => false
  end.

Fixpoint spec_text (json : JSONContent) : string :=
  if bool_decide (JSONContent.type json = Some "doc"
                  ∨ JSONContent.type json = Some "paragraph") then
    match JSONContent.content json with
    | Some nodes => join (map spec_text nodes) +:+ LF
    | None => LF
    end
  else if bool_decide (JSONContent.type json = Some "hardBreak") then LF
  else if bool_decide (JSONContent.type json = Some "text") then
    str_or_empty (JSONContent.text json)
  else if bool_decide (JSONContent.type json = Some "mention") then
    match attr (JSONContent.attrs json) "id" with
    | Some id => if absent_or_empty (Some id) then "@" else "@" +:+ ToString id
    | None => "@"
    end
  else EmptyString.

(** The links of a node as the specification describes them: the links
    of the children first, then the href of every mark of type 'link'
    whose href is truthy. *)
Definition truthy_link_href (m : Mark) : option jsval :=
  if bool_decide (Mark.type m = "link") then
    match attr (Mark.attrs m) "href" with
    | Some href => if truthy href then Some href else None
    | None => None
    end
  else None.

Fixpoint spec_links (json : JSONContent) : list jsval :=
  match JSONContent.content json with
  | Some nodes => concat (map spec_links nodes)
  | None => []
  end
  ++ match JSONContent.marks json with
     | Some ms => omap truthy_link_href ms
     | None => []
     end.

(** [subnode d json]: [d] is [json] or lies below it. *)
Inductive subnode (d : JSONContent) : JSONContent -> Prop :=
  | subnode_here : subnode d d
  | subnode_below json child :
      child ∈ children json -> subnode d child -> subnode d json.

(** The marks of a node of type 'link'. *)
Definition link_marks (json : JSONContent) : list Mark :=
  filter (fun m => Mark.type m = "link") (default [] (JSONContent.marks json)).

(** The node's own link: the href of its first mark of type 'link', when
    it is truthy. *)
Definition own_link (json : JSONContent) : list jsval :=
  match JSONContent.marks json ≫= find_link with
  | Some link =>
      match attr (Mark.attrs link) "href" with
      | Some href => if truthy href then [href] else []
      | None => []
      end
  | None => []
  end.

(** The values that JavaScript takes for false in a condition. *)
Definition falsy_values : list jsval :=
  [JNull; JBool false; JNum "0"; JNum "NaN"; JStr EmptyString].

(** The node of type 'mention' whose id is [false]. *)
Definition mention_false : JSONContent :=
  JSONContent.mk (Some "mention") (Some {[ "id" := JBool false ]})
    None None None.

(** A text node that carries two link marks. *)
Definition two_link_marks : JSONContent :=
  JSONContent.mk (Some "text") None None
    (Some [ Mark.mk "link" (Some {[ "href" := JStr "https://a.example" ]});
            Mark.mk "link" (Some {[ "href" := JStr "https://b.example" ]}) ])
    (Some "a b").

(** A platform on which reading a blob fails, and one on which every
    fetch and every read succeeds and no string is an image URI. *)
Definition failing_reader : Platform :=
  {| isUriImage := fun _ => false;
     fetch_blob := fun _ => None;
     blobToDataUri := fun _ => inr "Failed to read blob" |}.

Definition working_reader : Platform :=
  {| isUriImage := fun _ => false;
     fetch_blob := fun uri => Some {| blob_bytes := uri; blob_type := "image/png" |};
     blobToDataUri := fun b => inl ("data:" +:+ blob_type b +:+ ";base64," +:+ blob_bytes b) |}.

(** A paste of one image file, and a paste of one text file. *)
Definition paste_image_file : ClipboardEvent :=
  {| clipboardData := Some {| items :=
       [ DataTransferItem.mk "file" "image/png" None
           (Some {| blob_bytes := "iVBORw0KGgo="; blob_type := "image/png" |}) ] |} |}.

Definition paste_text_file : ClipboardEvent :=
  {| clipboardData := Some {| items :=
       [ DataTransferItem.mk "file" "text/plain" None
           (Some {| blob_bytes := "aGVsbG8="; blob_type := "text/plain" |}) ] |} |}.

(** The specification's sentence on files: every clipboard item of kind
    'file' whose payload is a Blob is emitted as 'photo-pasted'. *)
Definition spec_file_items_emitted (P : Platform) (event : ClipboardEvent)
  : Prop :=
  forall dt item file,
    clipboardData event = Some dt ->
    item ∈ items dt ->
    DataTransferItem.kind item = "file" ->
    DataTransferItem.getAsFile item = Some file ->
    exists uri, Call onPhotoPasted [ArgString uri] ∈ handlePaste P mounted event.

(** The first and the last code unit of a string. *)
Definition first_unit (s : string) : option ascii :=
  match s with
  | EmptyString => None
  | String c _ => Some c
  end.

Fixpoint last_unit (s : string) : option ascii :=
  match s with
  | EmptyString => None
  | String c s' =>
      match last_unit s' with
      | Some c' => Some c'
      | None => Some c
      end
  end.

(** ** Notions for the further properties *)

(** [json] with the marks of every node taken away. *)
Fixpoint strip_marks (json : JSONContent) : JSONContent :=
  JSONContent.mk (JSONContent.type json) (JSONContent.attrs json)
    (match JSONContent.content json with
     | Some nodes => Some (map strip_marks nodes)
     | None => None
     end)
    None (JSONContent.text json).

(** A dependency of one of the two effects changes: its clean-up runs,
    then the effect runs again.  The listener is the function the prop
    holds at the time. *)
Definition rerun_publish_effect (e : EventEmitter) : EventEmitter :=
  addListener (removeListener e "publish" onPressPublish)
    "publish" onPressPublish.

Definition rerun_photo_pasted_effect (e : EventEmitter) : EventEmitter :=
  addListener (removeListener e "photo-pasted" onPhotoPasted)
    "photo-pasted" onPhotoPasted.

(** The emitters the component has between its mount and its unmount. *)
Inductive while_mounted : EventEmitter -> Prop :=
  | after_mount : while_mounted mounted
  | after_publish_rerun e :
      while_mounted e -> while_mounted (rerun_publish_effect e)
  | after_photo_pasted_rerun e :
      while_mounted e -> while_mounted (rerun_photo_pasted_effect e).

(** A clipboard item as a browser builds it: only an item of kind
    'string' hands a string to the callback of [getAsString], and only an
    item of kind 'file' has a file. *)
Definition browser_item (item : DataTransferItem) : Prop :=
  (is_Some (DataTransferItem.getAsString item) ->
   DataTransferItem.kind item = "string")
  ∧ (is_Some (DataTransferItem.getAsFile item) ->
     DataTransferItem.kind item = "file").

(** A document of one paragraph with a linked text, and a paste of one
    string item. *)
Definition linked_paragraph : JSONContent :=
  JSONContent.mk (Some "doc") None
    (Some [ JSONContent.mk (Some "paragraph") None
              (Some [ JSONContent.mk (Some "text") None None
                        (Some [ Mark.mk "link"
                                  (Some {[ "href" := JStr "https://a.example" ]}) ])
                        (Some "https://a.example") ])
              None None ])
    None None.

Definition paste_string : ClipboardEvent :=
  {| clipboardData := Some {| items :=
       [ DataTransferItem.mk "string" "text/plain"
           (Some "https://a.example/cat.png") None ] |} |}.

(** ** The component over its renders *)

(** What a render hands to the hooks of the component: the suggestedLinks
    prop, and the class that useColorSchemeStyle returns, which is
    'ProseMirror-light' or 'ProseMirror-dark'. *)
Module Render.
Record t := mk {
  suggestedLinks : JSSet;
  modeClass : string }.
End Render.
Abbreviation Render := Render.t.

(** [useEditor(options, [modeClass, emitter])] builds the editor with the
    options of the render in which a dependency has changed and keeps it,
    with the handlers of those options, over the renders in between.  The
    emitter is memoized and stays the same, so the editor is built again
    when modeClass changes.  An instance keeps the modeClass the editor was
    built with, the suggestedLinks its onUpdate handler closes over, and
    the latest render. *)
Record Instance := {
  editor_modeClass : string;
  editor_suggestedLinks : JSSet;
  current : Render }.






Definition number_mentions : JSONContent :=
  JSONContent.mk (Some "paragraph") None
    (Some [ JSONContent.mk (Some "mention") (Some {[ "id" := JNum "0" ]})
              None None None;
            JSONContent.mk (Some "mention") (Some {[ "id" := JNum "42" ]})
              None None None;
            JSONContent.mk (Some "mention") (Some {[ "id" := JNum "NaN" ]})
              None None None ])
    None None.


(** * Properties *)

(** ** Strings and lists *)

Lemma append_empty_r (s : string) : s +:+ EmptyString = s.
Proof.
  induction s as [|c s IH]; [done|].
  change (String c (s +:+ EmptyString) = String c s). by rewrite IH.
Qed.

Lemma append_assoc (a b c : string) : (a +:+ b) +:+ c = a +:+ (b +:+ c).
Proof.
  induction a as [|x a IH]; [done|].
  change (String x ((a +:+ b) +:+ c) = String x (a +:+ (b +:+ c))).
  by rewrite IH.
Qed.

(** The loop [for (node of nodes) text += f(node)]. *)
Lemma fold_left_append {A} (f : A -> string) (l : list A) (acc : string) :
  fold_left (fun text node => text +:+ f node) l acc = acc +:+ join (map f l).
Proof.
  revert acc. induction l as [|x l IH]; intros acc; simpl.
  - by rewrite append_empty_r.
  - by rewrite IH, append_assoc.
Qed.

(** The loop [for (node of nodes) links = links.concat(f(node))]. *)
Lemma fold_left_concat {A B} (f : A -> list B) (l : list A) (acc : list B) :
  fold_left (fun links node => links ++ f node) l acc = acc ++ concat (map f l).
Proof.
  revert acc. induction l as [|x l IH]; intros acc; simpl.
  - by rewrite app_nil_r.
  - by rewrite IH, app_assoc.
Qed.

Lemma length_eqb_0 {A} (l : list A) : (length l =? 0) = true -> l = [].
Proof. by destruct l. Qed.

(** ** Induction on documents *)

Lemma JSONContent_induction (Q : JSONContent -> Prop) :
  (forall json, Forall Q (children json) -> Q json) ->
  forall json, Q json.
Proof.
  intros step.
  fix IH 1. intros json. apply step.
  destruct json as [ty at' [nodes|] ma tx]; unfold children; simpl.
  - induction nodes as [|node nodes IHnodes]; constructor; [apply IH | exact IHnodes].
  - constructor.
Qed.

(** ** editorJsonToText *)

Lemma editorJsonToText_unfold (json : JSONContent) :
  editorJsonToText json =
  if bool_decide (JSONContent.type json = Some "doc"
                  ∨ JSONContent.type json = Some "paragraph") then
    join (map editorJsonToText (children json)) +:+ LF
  else if bool_decide (JSONContent.type json = Some "hardBreak") then LF
  else if bool_decide (JSONContent.type json = Some "text") then
    str_or_empty (JSONContent.text json)
  else if bool_decide (JSONContent.type json = Some "mention") then
    "@" +:+ ToString (js_or (attr (JSONContent.attrs json) "id")
                        (JStr EmptyString))
  else EmptyString.
Proof.
  destruct json as [ty at' co ma tx]; unfold children; simpl.
  repeat case_bool_decide; try done.
  destruct co as [nodes|]; simpl; [|done].
  destruct (length nodes =? 0) eqn:Hlen; simpl.
  - by rewrite (length_eqb_0 _ Hlen).
  - by rewrite fold_left_append.
Qed.

(** C1, as the specification words it, fails on a mention whose id is
    [false]: the code writes '@' alone, the specification's wording gives
    '@false'. *)
Lemma editorJsonToText_mention_false :
  editorJsonToText mention_false = "@"
  ∧ editorJsonToText mention_false ≠ spec_text mention_false.
Proof. split; [by vm_compute | by vm_compute]. Qed.

(** Mentions whose ids are the numbers 0, 42 and NaN. *)
Lemma editorJsonToText_number_mentions :
  editorJsonToText number_mentions = "@@42@" +:+ LF.
Proof. by vm_compute. Qed.

(** The falsy values are null, false, the numbers 0 and NaN, and the empty
    string. *)
Lemma truthy_false (v : jsval) : truthy v = false ↔ v ∈ falsy_values.
Proof.
  unfold falsy_values. split.
  - assert (forall x : jsval, x = v -> truthy v = false ->
              v ∈ [JNull; JBool false; JNum "0"; JNum "NaN"; JStr EmptyString])
      as Hcase; [|by apply (Hcase v)].
    intros x Hx Hv. destruct v as [|[]|n|s]; simpl in Hv; try done.
    + apply elem_of_cons. by left.
    + apply elem_of_cons. right. apply elem_of_cons. by left.
    + apply negb_false_iff, bool_decide_eq_true in Hv as [-> | ->].
      * do 2 (apply elem_of_cons; right). apply elem_of_cons. by left.
      * do 3 (apply elem_of_cons; right). apply elem_of_cons. by left.
    + apply negb_false_iff, bool_decide_eq_true in Hv as ->.
      do 4 (apply elem_of_cons; right). apply elem_of_cons. by left.
  - intros Hv. repeat (apply elem_of_cons in Hv as [->|Hv]; [done|]).
    by apply elem_of_nil in Hv.
Qed.

(** C1 (amended): editorJsonToText returns the concatenation of its
    children's conversions followed by a newline for 'doc' and
    'paragraph'; a newline for 'hardBreak'; the text field, or the empty
    string when it is absent, for 'text'; '@' followed by attrs.id for
    'mention', and '@' alone when attrs.id is absent or falsy, that is
    null, false, 0, NaN or the empty string; the empty string for every
    other type. *)
Theorem editorJsonToText_cases (json : JSONContent) :
  editorJsonToText json =
  (if bool_decide (JSONContent.type json = Some "doc"
                   ∨ JSONContent.type json = Some "paragraph") then
     join (map editorJsonToText (children json)) +:+ LF
   else if bool_decide (JSONContent.type json = Some "hardBreak") then LF
   else if bool_decide (JSONContent.type json = Some "text") then
     match JSONContent.text json with
     | Some text => text
     | None => EmptyString
     end
   else if bool_decide (JSONContent.type json = Some "mention") then
     match attr (JSONContent.attrs json) "id" with
     | Some id =>
         if bool_decide (id ∈ [JNull; JBool false; JNum "0"; JNum "NaN";
                               JStr EmptyString])
         then "@"
         else "@" +:+ ToString id
     | None => "@"
     end
   else EmptyString).
Proof.
  rewrite editorJsonToText_unfold.
  repeat case_bool_decide; try done.
  destruct (attr (JSONContent.attrs json) "id") as [id|]; [|done].
  simpl. fold falsy_values. case_bool_decide as Hid.
  - by rewrite (proj2 (truthy_false id)).
  - destruct (truthy id) eqn:Ht; [done|]. by apply truthy_false in Ht.
Qed.

Lemma spec_text_unfold (json : JSONContent) :
  spec_text json =
  if bool_decide (JSONContent.type json = Some "doc"
                  ∨ JSONContent.type json = Some "paragraph") then
    join (map spec_text (children json)) +:+ LF
  else if bool_decide (JSONContent.type json = Some "hardBreak") then LF
  else if bool_decide (JSONContent.type json = Some "text") then
    str_or_empty (JSONContent.text json)
  else if bool_decide (JSONContent.type json = Some "mention") then
    if absent_or_empty (attr (JSONContent.attrs json) "id") then "@"
    else "@" +:+ ToString (default JNull (attr (JSONContent.attrs json) "id"))
  else EmptyString.
Proof.
  destruct json as [ty at' co ma tx]; unfold children; simpl.
  repeat case_bool_decide; try done.
  - by destruct co.
  - by destruct (attr at' "id").
Qed.

(** The specification's wording and the code part only on a mention whose
    id is falsy without being absent or empty: false, 0 or NaN. *)
Lemma editorJsonToText_spec_text (json : JSONContent) :
  (forall d, subnode d json ->
     JSONContent.type d = Some "mention" ->
     attr (JSONContent.attrs d) "id" ∉ [Some (JBool false);
                                        Some (JNum "0"); Some (JNum "NaN")]) ->
  editorJsonToText json = spec_text json.
Proof.
  induction json as [json IH] using JSONContent_induction; intros Hid.
  rewrite editorJsonToText_unfold, spec_text_unfold.
  assert (map editorJsonToText (children json) = map spec_text (children json))
    as ->.
  { apply map_ext_in. intros child Hin. apply list_elem_of_In in Hin.
    rewrite Forall_forall in IH. apply IH; [done|].
    intros d Hd. apply Hid. by eapply subnode_below. }
  repeat case_bool_decide; try done.
  pose proof (Hid json (subnode_here _) ltac:(done)) as Hne.
  destruct (attr (JSONContent.attrs json) "id") as [[|[]|n|id]|]; simpl;
    try done.
  - destruct Hne. apply elem_of_cons. by left.
  - case_bool_decide as Hn; simpl; [|done].
    destruct Hne. apply elem_of_cons. right.
    destruct Hn as [-> | ->]; apply elem_of_cons; [by left|].
    right. apply elem_of_cons. by left.
  - by case_bool_decide.
Qed.

(** ** editorJsonToLinks *)

Lemma editorJsonToLinks_unfold (json : JSONContent) :
  editorJsonToLinks json =
  concat (map editorJsonToLinks (children json))
  ++ match JSONContent.marks json ≫= find_link with
     | Some link =>
         match attr (Mark.attrs link) "href" with
         | Some href => if truthy href then [href] else []
         | None => []
         end
     | None => []
     end.
Proof.
  destruct json as [ty at' co ma tx]; unfold children; simpl.
  assert (match co with
          | Some nodes =>
              if negb (length nodes =? 0)
              then fold_left (fun links node => links ++ editorJsonToLinks node)
                     nodes []
              else []
          | None => []
          end = concat (map editorJsonToLinks (default [] co))) as ->.
  { destruct co as [nodes|]; simpl; [|done].
    destruct (length nodes =? 0) eqn:Hlen; simpl.
    - by rewrite (length_eqb_0 _ Hlen).
    - by rewrite fold_left_concat. }
  destruct (ma ≫= find_link) as [link|]; simpl; [|by rewrite app_nil_r].
  destruct (attr (Mark.attrs link) "href") as [href|]; simpl;
    [|by rewrite app_nil_r].
  destruct (truthy href); [done | by rewrite app_nil_r].
Qed.

(** [find_link] returns the first mark of type 'link'. *)
Lemma find_link_first (ms : list Mark) :
  match find_link ms with
  | Some link =>
      exists pre post, ms = pre ++ link :: post
        ∧ Mark.type link = "link"
        ∧ Forall (fun m => Mark.type m ≠ "link") pre
  | None => Forall (fun m => Mark.type m ≠ "link") ms
  end.
Proof.
  unfold find_link. induction ms as [|m ms IH]; simpl; [constructor|].
  case_bool_decide as Hm.
  - exists [], ms. by repeat split.
  - destruct (find _ ms) as [link|].
    + destruct IH as (pre & post & -> & Hlink & Hpre).
      exists (m :: pre), post. repeat split; [done|]. by constructor.
    + by constructor.
Qed.

(** C3, as the specification words it, fails on a node with two link
    marks: the code keeps the first mark's href only. *)
Lemma editorJsonToLinks_two_link_marks :
  editorJsonToLinks two_link_marks = [JStr "https://a.example"]
  ∧ editorJsonToLinks two_link_marks ≠ spec_links two_link_marks.
Proof. split; [by vm_compute | by vm_compute]. Qed.

(** C3 (amended): editorJsonToLinks returns the links of the node's
    children, in order, followed by the node's own link: the href of the
    node's first mark of type 'link', when that href is truthy.  A node
    with no mark of type 'link', or whose first such mark has no truthy
    href, adds no entry of its own. *)
Theorem editorJsonToLinks_cases (json : JSONContent) :
  editorJsonToLinks json =
    concat (map editorJsonToLinks (children json))
    ++ match JSONContent.marks json ≫= find_link with
       | Some link =>
           match attr (Mark.attrs link) "href" with
           | Some href => if truthy href then [href] else []
           | None => []
           end
       | None => []
       end
  ∧ match JSONContent.marks json ≫= find_link with
    | Some link =>
        exists pre post,
          JSONContent.marks json = Some (pre ++ link :: post)
          ∧ Mark.type link = "link"
          ∧ Forall (fun m => Mark.type m ≠ "link") pre
    | None => link_marks json = []
    end.
Proof.
  split; [apply editorJsonToLinks_unfold|].
  unfold link_marks.
  destruct (JSONContent.marks json) as [ms|]; simpl; [|done].
  pose proof (find_link_first ms) as Hfirst.
  destruct (find_link ms) as [link|].
  - destruct Hfirst as (pre & post & -> & Hlink & Hpre). by exists pre, post.
  - induction Hfirst as [|m ms Hm _ IH]; [done|].
    by rewrite filter_cons_False.
Qed.

(** The links of a document are the own links of its nodes. *)
Lemma elem_of_editorJsonToLinks (json : JSONContent) (href : jsval) :
  href ∈ editorJsonToLinks json ↔ exists d, subnode d json ∧ href ∈ own_link d.
Proof.
  split.
  - induction json as [json IH] using JSONContent_induction.
    rewrite editorJsonToLinks_unfold. fold (own_link json).
    intros [Hin|Hin]%elem_of_app; [|exists json; split; [constructor | done]].
    apply list_elem_of_In, in_concat in Hin as (l & Hl & Hin).
    apply in_map_iff in Hl as (child & <- & Hchild).
    apply list_elem_of_In in Hchild, Hin.
    rewrite Forall_forall in IH.
    destruct (IH child Hchild Hin) as (d & Hd & Hown).
    exists d. split; [by eapply subnode_below | done].
  - intros (d & Hd & Hown). induction Hd as [|json child Hchild Hd IH].
    + rewrite editorJsonToLinks_unfold. fold (own_link d).
      apply elem_of_app. by right.
    + rewrite editorJsonToLinks_unfold. apply elem_of_app. left.
      apply list_elem_of_In, in_concat. exists (editorJsonToLinks child).
      split; [|by apply list_elem_of_In, IH].
      apply in_map, list_elem_of_In, Hchild.
Qed.

(** Every link returned is truthy. *)
Lemma editorJsonToLinks_truthy (json : JSONContent) (href : jsval) :
  href ∈ editorJsonToLinks json -> truthy href = true.
Proof.
  intros (d & _ & Hown)%elem_of_editorJsonToLinks. unfold own_link in Hown.
  destruct (JSONContent.marks d ≫= find_link) as [link|];
    [|by apply elem_of_nil in Hown].
  destruct (attr (Mark.attrs link) "href") as [h|];
    [|by apply elem_of_nil in Hown].
  destruct (truthy h) eqn:Hh; [|by apply elem_of_nil in Hown].
  by apply list_elem_of_singleton in Hown as ->.
Qed.

Lemma omap_truthy_link_href_no_link (ms : list Mark) :
  filter (fun m => Mark.type m = "link") ms = [] ->
  omap truthy_link_href ms = [].
Proof.
  induction ms as [|m ms IH]; [done|].
  rewrite filter_cons. case_decide as Hm; [done|]. intros Hms.
  simpl. unfold truthy_link_href at 1.
  rewrite bool_decide_eq_false_2 by done. by apply IH.
Qed.

Lemma omap_truthy_link_href_one (ms : list Mark) :
  length (filter (fun m => Mark.type m = "link") ms) ≤ 1 ->
  omap truthy_link_href ms =
  match find_link ms with
  | Some link =>
      match attr (Mark.attrs link) "href" with
      | Some href => if truthy href then [href] else []
      | None => []
      end
  | None => []
  end.
Proof.
  unfold find_link. induction ms as [|m ms IH]; [done|].
  rewrite filter_cons. simpl. unfold truthy_link_href at 1.
  case_decide as Hm.
  - rewrite bool_decide_eq_true_2 by done. simpl. intros Hlen.
    rewrite omap_truthy_link_href_no_link
      by (apply length_zero_iff_nil; lia).
    destruct (attr (Mark.attrs m) "href") as [href|]; [|done].
    by destruct (truthy href).
  - rewrite bool_decide_eq_false_2 by done. apply IH.
Qed.

(** The specification's wording and the code agree on the documents in
    which no node carries two marks of type 'link'. *)
Lemma editorJsonToLinks_spec_links (json : JSONContent) :
  (forall d, subnode d json -> length (link_marks d) ≤ 1) ->
  editorJsonToLinks json = spec_links json.
Proof.
  induction json as [json IH] using JSONContent_induction; intros Hone.
  rewrite editorJsonToLinks_unfold.
  assert (map editorJsonToLinks (children json) = map spec_links (children json))
    as ->.
  { apply map_ext_in. intros child Hin. apply list_elem_of_In in Hin.
    rewrite Forall_forall in IH. apply IH; [done|].
    intros d Hd. apply Hone. by eapply subnode_below. }
  pose proof (Hone json (subnode_here _)) as Hjson.
  unfold link_marks in Hjson.
  destruct json as [ty at' co ma tx]; unfold children; simpl in *.
  f_equal; [by destruct co|].
  destruct ma as [ms|]; simpl; [|done].
  by rewrite omap_truthy_link_href_one.
Qed.

(** ** trim *)

Lemma trimStart_spec (s : string) :
  exists pre, s = pre +:+ trimStart s
    ∧ string_forall isWhiteSpace pre = true
    ∧ forall c, first_unit (trimStart s) = Some c -> isWhiteSpace c = false.
Proof.
  induction s as [|c s (pre & Hs & Hpre & Hfirst)]; simpl.
  - by exists EmptyString.
  - destruct (isWhiteSpace c) eqn:Hc.
    + exists (String c pre). repeat split; [|by simpl; rewrite Hc|done].
      change (String c s = String c (pre +:+ trimStart s)). by rewrite <- Hs.
    + exists EmptyString. repeat split. simpl. by intros ? [= <-].
Qed.

Lemma trimEnd_spec (s : string) :
  exists post, s = trimEnd s +:+ post
    ∧ string_forall isWhiteSpace post = true
    ∧ forall c, last_unit (trimEnd s) = Some c -> isWhiteSpace c = false.
Proof.
  induction s as [|c s (post & Hs & Hpost & Hlast)]; simpl.
  - by exists EmptyString.
  - destruct (isWhiteSpace c && bool_decide (trimEnd s = EmptyString)) eqn:Hc.
    + apply andb_prop in Hc as [Hc Hr]. apply bool_decide_eq_true in Hr.
      exists (String c post). repeat split; [|by simpl; rewrite Hc|done].
      rewrite Hr in Hs. simpl in Hs. by rewrite Hs.
    + exists post. repeat split; [|done|].
      * change (String c s = String c (trimEnd s +:+ post)). by rewrite <- Hs.
      * simpl. intros c'. destruct (last_unit (trimEnd s)) as [c''|] eqn:Hl.
        { intros [= <-]. by apply Hlast. }
        intros [= <-]. apply andb_false_iff in Hc. destruct Hc as [Hc|Hr]; [done|].
        apply bool_decide_eq_false in Hr.
        destruct (trimEnd s) as [|a r]; [done|].
        simpl in Hl. by destruct (last_unit r).
Qed.

Lemma first_unit_trimEnd (s : string) (c : ascii) :
  first_unit (trimEnd s) = Some c -> first_unit s = Some c.
Proof.
  destruct s as [|c' s]; simpl; [done|].
  by destruct (isWhiteSpace c' && bool_decide (trimEnd s = EmptyString)).
Qed.

(** [trim s] is [s] without a prefix and a suffix of white space, and it
    neither starts nor ends with white space. *)
Lemma trim_spec (s : string) :
  exists pre post, s = pre +:+ trim s +:+ post
    ∧ string_forall isWhiteSpace pre = true
    ∧ string_forall isWhiteSpace post = true
    ∧ (forall c, first_unit (trim s) = Some c -> isWhiteSpace c = false)
    ∧ (forall c, last_unit (trim s) = Some c -> isWhiteSpace c = false).
Proof.
  destruct (trimStart_spec s) as (pre & Hs & Hpre & Hfirst).
  destruct (trimEnd_spec (trimStart s)) as (post & Hs' & Hpost & Hlast).
  exists pre, post. unfold trim. repeat split; try done.
  - by rewrite <- Hs', <- Hs.
  - intros c Hc. by apply Hfirst, first_unit_trimEnd.
Qed.

(** ** Sets and isEqual *)

Lemma elem_of_fold_Set_add (l : list jsval) (acc : JSSet) (x : jsval) :
  x ∈ fold_left Set_add l acc ↔ x ∈ acc ∨ x ∈ l.
Proof.
  revert acc. induction l as [|v l IH]; intros acc; simpl.
  - rewrite elem_of_nil. tauto.
  - rewrite IH, elem_of_cons. unfold Set_add. case_bool_decide as Hv.
    + split; [tauto|]. intros [Hx|[->|Hx]]; tauto.
    + rewrite elem_of_app, list_elem_of_singleton. tauto.
Qed.

Lemma NoDup_fold_Set_add (l : list jsval) (acc : JSSet) :
  NoDup acc -> NoDup (fold_left Set_add l acc).
Proof.
  revert acc. induction l as [|v l IH]; intros acc Hacc; simpl; [done|].
  apply IH. unfold Set_add. case_bool_decide; [done|].
  apply NoDup_app. repeat split; [done| |apply NoDup_singleton].
  intros x Hx ->%list_elem_of_singleton. done.
Qed.

(** [new Set(l)] holds the elements of [l], each once. *)
Lemma elem_of_new_Set (l : list jsval) (x : jsval) : x ∈ new_Set l ↔ x ∈ l.
Proof.
  unfold new_Set. rewrite elem_of_fold_Set_add, elem_of_nil. tauto.
Qed.

Lemma NoDup_new_Set (l : list jsval) : NoDup (new_Set l).
Proof. apply NoDup_fold_Set_add. constructor. Qed.

Lemma take_out_Some (v : jsval) (l l' : list jsval) :
  take_out v l = Some l' -> l ≡ₚ v :: l'.
Proof.
  revert l'. induction l as [|x l IH]; intros l'; simpl; [done|].
  case_bool_decide as Hv.
  - intros [= <-]. by subst.
  - destruct (take_out v l) as [r|]; simpl; [|done].
    intros [= <-]. rewrite (IH r eq_refl). apply Permutation_swap.
Qed.

Lemma take_out_None (v : jsval) (l : list jsval) :
  take_out v l = None -> v ∉ l.
Proof.
  induction l as [|x l IH]; simpl; [intros _; apply not_elem_of_nil|].
  case_bool_decide as Hv; [done|].
  destruct (take_out v l); simpl; [done|].
  intros _. apply not_elem_of_cons. split; [done | by apply IH].
Qed.

Lemma match_unordered_submseteq (a b : list jsval) :
  match_unordered a b = true ↔ a ⊆+ b.
Proof.
  revert b. induction a as [|v a IH]; intros b; simpl.
  - split; [intros _; apply submseteq_nil_l | done].
  - destruct (take_out v b) as [b'|] eqn:Hb.
    + apply take_out_Some in Hb. rewrite IH. split.
      * intros Hab. rewrite Hb. by apply submseteq_skip.
      * intros Hab. rewrite Hb in Hab. by apply (submseteq_app_inv_l _ _ [v]).
    + apply take_out_None in Hb. split; [done|].
      intros Hab. destruct Hb. eapply elem_of_submseteq; [|exact Hab].
      apply elem_of_cons. by left.
Qed.

(** isEqual holds of two element arrays when one is a rearrangement of
    the other. *)
Lemma isEqual_Permutation (a b : JSSet) : isEqual a b = true ↔ a ≡ₚ b.
Proof.
  unfold isEqual. rewrite andb_true_iff, bool_decide_eq_true.
  rewrite match_unordered_submseteq. split.
  - intros [Hlen Hsub]. apply submseteq_length_Permutation; [done | lia].
  - intros Hab. split; [by rewrite Hab | by rewrite Hab].
Qed.

(** On sets, which hold no element twice, isEqual is equality of
    membership. *)
Lemma isEqual_same_elements (a b : JSSet) :
  NoDup a -> NoDup b ->
  isEqual a b = true ↔ forall x, x ∈ a ↔ x ∈ b.
Proof.
  intros Ha Hb. rewrite isEqual_Permutation. split.
  - intros Hab x. by rewrite Hab.
  - intros Hab. by apply NoDup_Permutation.
Qed.

(** ** The emitter *)

Lemma emit_mounted_publish (args : list arg) :
  emit mounted "publish" args = [Call onPressPublish args].
Proof. done. Qed.

Lemma emit_mounted_photo_pasted (args : list arg) :
  emit mounted "photo-pasted" args = [Call onPhotoPasted args].
Proof. done. Qed.

(** The clean-ups take both listeners off again. *)
Lemma unmount_mount : unmount mounted = new_EventEmitter.
Proof. done. Qed.

(** ** Key presses *)

Lemma handleKeyDown_shortcut (emitter : EventEmitter) (event : KeyboardEvent) :
  publish_shortcut event ->
  handleKeyDown emitter event = emit emitter "publish" [].
Proof.
  intros [Hkey Hcode]. unfold handleKeyDown.
  rewrite bool_decide_eq_true_2 by done.
  by destruct Hkey as [-> | ->]; destruct (metaKey event).
Qed.

Lemma handleKeyDown_other (emitter : EventEmitter) (event : KeyboardEvent) :
  ¬ publish_shortcut event -> handleKeyDown emitter event = [].
Proof.
  intros Hno. unfold handleKeyDown, publish_shortcut in *.
  case_bool_decide; destruct (metaKey event), (ctrlKey event); simpl;
    try done; destruct Hno; auto.
Qed.

Lemma publish_shortcut_dec (event : KeyboardEvent) :
  publish_shortcut event ∨ ¬ publish_shortcut event.
Proof.
  unfold publish_shortcut.
  destruct (metaKey event), (ctrlKey event), (decide (code event = "Enter"));
    intuition discriminate.
Qed.

(** C4: a key press publishes exactly when metaKey or ctrlKey is set and
    the code is 'Enter': on the mounted component the handler then calls
    onPressPublish once, through the 'publish' event, and on every other
    key press it calls nothing. *)
Theorem handleKeyDown_publish (event : KeyboardEvent) :
  (handleKeyDown mounted event = [Call onPressPublish []]
   ↔ (metaKey event = true ∨ ctrlKey event = true) ∧ code event = "Enter")
  ∧ (handleKeyDown mounted event = []
     ↔ ¬ ((metaKey event = true ∨ ctrlKey event = true)
          ∧ code event = "Enter"))
  ∧ (forall emitter,
       handleKeyDown emitter event = emit emitter "publish" []
       ∨ handleKeyDown emitter event = []).
Proof.
  fold (publish_shortcut event).
  destruct (publish_shortcut_dec event) as [Hyes|Hno].
  - pose proof (handleKeyDown_shortcut mounted event Hyes) as Hm.
    rewrite emit_mounted_publish in Hm. rewrite Hm.
    split; [done|]. split; [split; [done | by intros []]|].
    intros emitter. left. by apply handleKeyDown_shortcut.
  - pose proof (handleKeyDown_other mounted event Hno) as Hm. rewrite Hm.
    split; [split; [done | by intros ?]|]. split; [done|].
    intros emitter. right. by apply handleKeyDown_other.
Qed.

(** C8: when the shortcut fires, 'publish' is emitted with no argument,
    so onPressPublish is called with an empty argument list and its
    richtext parameter is undefined. *)
Theorem publish_without_richtext (event : KeyboardEvent) :
  publish_shortcut event ->
  (forall emitter, handleKeyDown emitter event = emit emitter "publish" [])
  ∧ calls_of onPressPublish (handleKeyDown mounted event) = [[]]
  ∧ forall args,
      args ∈ calls_of onPressPublish (handleKeyDown mounted event) ->
      parameter args 0 = None.
Proof.
  intros Hyes. split; [|split].
  - intros emitter. by apply handleKeyDown_shortcut.
  - by rewrite (handleKeyDown_shortcut mounted event Hyes).
  - rewrite (handleKeyDown_shortcut mounted event Hyes).
    by intros args ->%list_elem_of_singleton.
Qed.

Lemma publish_without_richtext_witness :
  publish_shortcut {| metaKey := true; ctrlKey := false; code := "Enter" |}
  ∧ calls_of onPressPublish
      (handleKeyDown mounted
         {| metaKey := true; ctrlKey := false; code := "Enter" |}) = [[]].
Proof.
  assert (publish_shortcut
            {| metaKey := true; ctrlKey := false; code := "Enter" |}) as H.
  { split; [by left | reflexivity]. }
  split; [exact H|].
  exact (proj1 (proj2 (publish_without_richtext _ H))).
Defined.

(** ** The imperative handle *)

(** C9: focus and blur of the imperative handle do nothing: they call no
    prop and leave the emitter and the editor, its focus included, as they
    were. *)
Theorem focus_blur_noop (st : State) :
  focus imperativeHandle st = (st, [])
  ∧ blur imperativeHandle st = (st, [])
  ∧ isFocused (st_editor (focus imperativeHandle st).1) = isFocused (st_editor st)
  ∧ isFocused (st_editor (blur imperativeHandle st).1) = isFocused (st_editor st).
Proof. done. Qed.

(** ** The Link extension *)

(** The options of the Link extension: the editor is given one Link
    extension, configured with autolink on, link-on-paste off and the
    protocol list http, https.  What the extension detects with these
    options is its own code, outside this file. *)
Theorem link_configuration (placeholder : string) :
  exists o,
    link_options (extensions placeholder) = [o]
    ∧ autolink o = true
    ∧ linkOnPaste o = false
    ∧ protocols o = ["http"; "https"]
    ∧ forall p, p ∈ protocols o ↔ p = "http" ∨ p = "https".
Proof.
  eexists. split; [reflexivity|]. simpl.
  do 3 (split; [done|]). intros p. split.
  - intros [->|[->|[]%elem_of_nil]%elem_of_cons]%elem_of_cons; auto.
  - intros [-> | ->]; [apply elem_of_cons; by left|].
    apply elem_of_cons; right. apply elem_of_cons; by left.
Qed.

(** ** Updates *)

(** C2: on an update the component calls setRichText exactly once, with a
    RichText built from the trimmed text of the editor's document, on
    which detectFacetsWithoutResolution, and nothing else, was called; the
    text is the document's text without the white space at its two ends;
    beyond that the handler only calls onSuggestedLinksChanged. *)
Theorem onUpdate_setRichText (suggestedLinks : JSSet) (editorProp : Editor) :
  exists rt,
    calls_of setRichText (onUpdate suggestedLinks editorProp) = [[ArgRichText rt]]
    ∧ rt = detectFacetsWithoutResolution
             (new_RichText (trim (editorJsonToText (getJSON editorProp))))
    ∧ rt_calls rt = [detectFacetsWithoutResolution_call]
    ∧ rt_text rt = trim (editorJsonToText (getJSON editorProp))
    ∧ (exists pre post,
         editorJsonToText (getJSON editorProp) = pre +:+ rt_text rt +:+ post
         ∧ string_forall isWhiteSpace pre = true
         ∧ string_forall isWhiteSpace post = true
         ∧ (forall c, first_unit (rt_text rt) = Some c -> isWhiteSpace c = false)
         ∧ (forall c, last_unit (rt_text rt) = Some c -> isWhiteSpace c = false))
    ∧ Forall (fun e => exists args,
                e = Call setRichText args
                ∨ e = Call onSuggestedLinksChanged args)
        (onUpdate suggestedLinks editorProp).
Proof.
  eexists. split; [|split; [reflexivity|]].
  - unfold onUpdate. simpl.
    by destruct (isEqual _ suggestedLinks).
  - do 2 (split; [done|]). split; [apply trim_spec|].
    unfold onUpdate. constructor; [by eexists; left|].
    destruct (isEqual _ suggestedLinks); simpl; [constructor|].
    constructor; [by eexists; right | constructor].
Qed.


(** X8: the same in terms of membership: when the prop is a set, the
    callback is skipped exactly when the prop holds the links of the
    document and nothing else. *)
Lemma onUpdate_same_links (suggestedLinks : JSSet) (editorProp : Editor) :
  NoDup suggestedLinks ->
  calls_of onSuggestedLinksChanged (onUpdate suggestedLinks editorProp) = []
  ↔ forall x, x ∈ editorJsonToLinks (getJSON editorProp) ↔ x ∈ suggestedLinks.
Proof.
  intros Hprop. unfold onUpdate.
  pose proof (isEqual_same_elements
                (new_Set (editorJsonToLinks (getJSON editorProp)))
                suggestedLinks (NoDup_new_Set _) Hprop) as Heq.
  setoid_rewrite elem_of_new_Set in Heq. rewrite <- Heq.
  by destruct (isEqual _ suggestedLinks).
Qed.

(** ** Pasting *)

(** Nothing is a member of the empty list of calls. *)
Ltac no_call := by intros ?%elem_of_nil.

Lemma getImageFromUri_concat (P : Platform) (l : list DataTransferItem)
    (callback : string -> list effect) :
  getImageFromUri P l callback =
  concat (map (fun item => text_plain_branch P item callback
                           ++ file_branch P item callback) l).
Proof.
  unfold getImageFromUri.
  by rewrite (fold_left_concat
                (fun item => text_plain_branch P item callback
                             ++ file_branch P item callback)).
Qed.

(** C5, as the specification words it, fails when the blob cannot be
    read: the file is not emitted, the error goes to the console. *)
Lemma handlePaste_failing_reader :
  handlePaste failing_reader mounted paste_image_file
    = [console_error "Failed to read blob"]
  ∧ ¬ spec_file_items_emitted failing_reader paste_image_file.
Proof.
  split; [done|]. intros Hspec.
  destruct (Hspec _ _ _ eq_refl ltac:(by apply elem_of_cons; left)
              eq_refl eq_refl) as [uri Huri].
  vm_compute in Huri.
  by apply list_elem_of_singleton in Huri.
Qed.

(** An item of type 'text/plain' that is a file is emitted through the
    file branch, whatever isUriImage says. *)
Lemma handlePaste_text_file :
  handlePaste working_reader mounted paste_text_file
    = [Call onPhotoPasted [ArgString "data:text/plain;base64,aGVsbG8="]].
Proof. done. Qed.

(** C5 (amended): without clipboardData the handler does nothing;
    otherwise it goes through the items, and for each item
    - of kind 'file' with a Blob payload, the blob is read as a data URI
      and, when the read succeeds, the URI is emitted as 'photo-pasted',
      which calls onPhotoPasted; when it fails the error goes to
      console.error and nothing is emitted;
    - of type 'text/plain', the string content is emitted only when
      isUriImage recognises it, and after it was fetched and read as a
      data URI, both with success;
    - that is neither, nothing is called. *)
Theorem handlePaste_cases (P : Platform) (event : ClipboardEvent) :
  (clipboardData event = None -> handlePaste P mounted event = [])
  ∧ (forall dt, clipboardData event = Some dt ->
       handlePaste P mounted event =
       concat (map (fun item => text_plain_branch P item photo_pasted
                                ++ file_branch P item photo_pasted)
                 (items dt)))
  ∧ forall item,
      (forall file,
         DataTransferItem.kind item = "file" ->
         DataTransferItem.getAsFile item = Some file ->
         match blobToDataUri P (new_Blob file (DataTransferItem.type item)) with
         | inl uri =>
             file_branch P item photo_pasted
             = [Call onPhotoPasted [ArgString uri]]
         | inr err => file_branch P item photo_pasted = [console_error err]
         end)
      ∧ (DataTransferItem.kind item ≠ "file"
         ∨ DataTransferItem.getAsFile item = None ->
         file_branch P item photo_pasted = [])
      ∧ (forall uri,
           Call onPhotoPasted [ArgString uri]
             ∈ text_plain_branch P item photo_pasted ->
           DataTransferItem.type item = "text/plain"
           ∧ exists itemString blob,
               DataTransferItem.getAsString item = Some itemString
               ∧ isUriImage P itemString = true
               ∧ fetch_blob P itemString = Some blob
               ∧ blobToDataUri P blob = inl uri)
      ∧ (forall itemString blob uri,
           DataTransferItem.type item = "text/plain" ->
           DataTransferItem.getAsString item = Some itemString ->
           isUriImage P itemString = true ->
           fetch_blob P itemString = Some blob ->
           blobToDataUri P blob = inl uri ->
           text_plain_branch P item photo_pasted
           = [Call onPhotoPasted [ArgString uri]])
      ∧ (DataTransferItem.type item ≠ "text/plain" ->
         text_plain_branch P item photo_pasted = []).
Proof.
  split; [|split].
  - unfold handlePaste. by intros ->.
  - intros dt Hdt. unfold handlePaste. rewrite Hdt.
    apply getImageFromUri_concat.
  - intros item. split; [|split; [|split; [|split]]].
    + intros file Hkind Hfile. unfold file_branch.
      rewrite bool_decide_eq_true_2 by done. rewrite Hfile.
      by destruct (blobToDataUri P _).
    + intros Hno. unfold file_branch. case_bool_decide; [|done].
      destruct Hno as [Hno|Hno]; [done | by rewrite Hno].
    + intros uri. unfold text_plain_branch.
      case_bool_decide as Htype; [|no_call].
      destruct (DataTransferItem.getAsString item) as [itemString|];
        [|no_call].
      destruct (isUriImage P itemString) eqn:Himg; [|no_call].
      destruct (fetch_blob P itemString) as [blob|] eqn:Hfetch;
        [|no_call].
      destruct (blobToDataUri P blob) as [uri'|err] eqn:Hread; simpl.
      * intros [= <-]%list_elem_of_singleton.
        split; [done|]. by exists itemString, blob.
      * by intros [=]%list_elem_of_singleton.
    + intros itemString blob uri Htype Hstr Himg Hfetch Hread.
      unfold text_plain_branch.
      rewrite bool_decide_eq_true_2 by done.
      by rewrite Hstr, Himg, Hfetch, Hread.
    + intros Htype. unfold text_plain_branch. by case_bool_decide.
Qed.

Lemma handlePaste_cases_witness :
  handlePaste working_reader mounted {| clipboardData := None |} = []
  ∧ handlePaste working_reader mounted paste_image_file
    = [Call onPhotoPasted [ArgString "data:image/png;base64,iVBORw0KGgo="]].
Proof.
  split.
  - exact (proj1 (handlePaste_cases working_reader {| clipboardData := None |})
             eq_refl).
  - exact (proj1 (proj2 (handlePaste_cases working_reader paste_image_file))
             _ eq_refl).
Defined.

(** * Further properties *)

(** ** Links and marks *)

Lemma elem_of_own_link (json : JSONContent) (href : jsval) :
  href ∈ own_link json ↔
  exists link,
    JSONContent.marks json ≫= find_link = Some link
    ∧ attr (Mark.attrs link) "href" = Some href
    ∧ truthy href = true.
Proof.
  unfold own_link.
  destruct (JSONContent.marks json ≫= find_link) as [link|].
  - destruct (attr (Mark.attrs link) "href") as [h|] eqn:Hattr.
    + destruct (truthy h) eqn:Hh.
      * rewrite list_elem_of_singleton. split.
        { intros ->. by exists link. }
        intros (? & [= <-] & Hhref & _). congruence.
      * rewrite elem_of_nil. split; [done|].
        intros (? & [= <-] & Hhref & Ht). congruence.
    + rewrite elem_of_nil. split; [done|].
      intros (? & [= <-] & Hhref & _). congruence.
  - rewrite elem_of_nil. split; [done|]. by intros (? & ? & _).
Qed.

(** X1: a value is among the links of a document exactly when it is the
    truthy href of the first mark of type 'link' of some node of the
    document, whatever the type of that node and of the nodes above it. *)
Theorem editorJsonToLinks_from_marks (json : JSONContent) (href : jsval) :
  href ∈ editorJsonToLinks json ↔
  exists d link,
    subnode d json
    ∧ JSONContent.marks d ≫= find_link = Some link
    ∧ attr (Mark.attrs link) "href" = Some href
    ∧ truthy href = true.
Proof.
  rewrite elem_of_editorJsonToLinks. split.
  - intros (d & Hd & (link & Hlink)%elem_of_own_link). by exists d, link.
  - intros (d & link & Hd & Hlink). exists d. split; [done|].
    apply elem_of_own_link. by exists link.
Qed.

(** X2: no link returned is falsy: null, false, 0, NaN and the empty
    string never appear among the links. *)
Theorem editorJsonToLinks_all_truthy (json : JSONContent) :
  Forall (fun href => truthy href = true
                      ∧ href ≠ JNull ∧ href ≠ JBool false
                      ∧ href ≠ JNum "0" ∧ href ≠ JNum "NaN"
                      ∧ href ≠ JStr EmptyString)
    (editorJsonToLinks json).
Proof.
  apply Forall_forall. intros href Hin%editorJsonToLinks_truthy.
  split; [done|]. by repeat split; intros ->.
Qed.

Lemma children_strip_marks (json : JSONContent) :
  children (strip_marks json) = map strip_marks (children json).
Proof. by destruct json as [ty at' [nodes|] ma tx]. Qed.

Lemma strip_marks_fields (json : JSONContent) :
  JSONContent.type (strip_marks json) = JSONContent.type json
  ∧ JSONContent.attrs (strip_marks json) = JSONContent.attrs json
  ∧ JSONContent.text (strip_marks json) = JSONContent.text json
  ∧ JSONContent.marks (strip_marks json) = None.
Proof. by destruct json. Qed.

(** X3: the text of a document does not depend on its marks: taking the
    marks of every node away leaves the text as it was. *)
Theorem editorJsonToText_strip_marks (json : JSONContent) :
  editorJsonToText (strip_marks json) = editorJsonToText json.
Proof.
  induction json as [json IH] using JSONContent_induction.
  rewrite (editorJsonToText_unfold json),
    (editorJsonToText_unfold (strip_marks json)).
  destruct (strip_marks_fields json) as (-> & -> & -> & _).
  rewrite children_strip_marks, map_map.
  assert (map (fun x => editorJsonToText (strip_marks x)) (children json)
          = map editorJsonToText (children json)) as ->; [|done].
  apply map_ext_in. intros child Hin%list_elem_of_In.
  rewrite Forall_forall in IH. by apply IH.
Qed.

(** X4: a document without marks has no links, whatever its texts say. *)
Theorem editorJsonToLinks_strip_marks (json : JSONContent) :
  editorJsonToLinks (strip_marks json) = [].
Proof.
  induction json as [json IH] using JSONContent_induction.
  rewrite editorJsonToLinks_unfold.
  destruct (strip_marks_fields json) as (_ & _ & _ & ->). simpl.
  rewrite children_strip_marks, map_map, app_nil_r.
  induction IH as [|child nodes Hchild _ IHnodes]; [done|].
  simpl. by rewrite Hchild, IHnodes.
Qed.

(** ** White space *)

Lemma string_forall_app (p : ascii -> bool) (a b : string) :
  string_forall p (a +:+ b) = string_forall p a && string_forall p b.
Proof.
  induction a as [|c a IH]; [done|].
  change (p c && string_forall p (a +:+ b)
          = p c && string_forall p a && string_forall p b).
  by rewrite IH, andb_assoc.
Qed.

Lemma trimStart_empty (s : string) :
  trimStart s = EmptyString ↔ string_forall isWhiteSpace s = true.
Proof.
  induction s as [|c s IH]; simpl; [done|].
  destruct (isWhiteSpace c); simpl; [done|]. split; discriminate.
Qed.

Lemma trimEnd_empty (s : string) :
  trimEnd s = EmptyString ↔ string_forall isWhiteSpace s = true.
Proof.
  induction s as [|c s IH]; simpl; [done|].
  destruct (isWhiteSpace c); simpl; [|split; discriminate].
  case_bool_decide as Hr; simpl.
  - split; [intros _; by apply IH | done].
  - split; [discriminate|]. intros Hs. by apply IH in Hs.
Qed.

Lemma trim_empty (s : string) :
  trim s = EmptyString ↔ string_forall isWhiteSpace s = true.
Proof.
  unfold trim. rewrite trimEnd_empty. split.
  - intros Hrest. destruct (trimStart_spec s) as (pre & Hs & Hpre & _).
    rewrite Hs, string_forall_app, Hpre. done.
  - intros Hs. apply trimStart_empty in Hs. by rewrite Hs.
Qed.

(** ** Updates *)

(** X5: on an update setRichText is given the empty text exactly when the
    text of the document is white space and nothing else. *)
Theorem onUpdate_empty_text (suggestedLinks : JSSet) (editorProp : Editor) :
  calls_of setRichText (onUpdate suggestedLinks editorProp)
    = [[ArgRichText (detectFacetsWithoutResolution (new_RichText EmptyString))]]
  ↔ string_forall isWhiteSpace (editorJsonToText (getJSON editorProp)) = true.
Proof.
  rewrite <- trim_empty.
  assert (calls_of setRichText (onUpdate suggestedLinks editorProp)
          = [[ArgRichText
                (detectFacetsWithoutResolution
                   (new_RichText (trim (editorJsonToText (getJSON editorProp)))))]])
    as ->.
  { unfold onUpdate. simpl. by destruct (isEqual _ suggestedLinks). }
  split; [by intros [= ->] | by intros ->].
Qed.

(** X6: the set given to onSuggestedLinksChanged holds every link of the
    document, each once. *)
Theorem onUpdate_reported_set (suggestedLinks : JSSet) (editorProp : Editor) :
  Forall (fun args =>
            exists s, args = [ArgSet s]
              ∧ NoDup s
              ∧ forall x, x ∈ s ↔ x ∈ editorJsonToLinks (getJSON editorProp))
    (calls_of onSuggestedLinksChanged (onUpdate suggestedLinks editorProp)).
Proof.
  unfold onUpdate. simpl.
  destruct (isEqual _ suggestedLinks); simpl; constructor; [|constructor].
  eexists. split; [done|]. split; [apply NoDup_new_Set|].
  intros x. apply elem_of_new_Set.
Qed.

Lemma onUpdate_same_links_witness :
  NoDup [JStr "https://a.example"]
  ∧ (calls_of onSuggestedLinksChanged
       (onUpdate [JStr "https://a.example"]
          {| getJSON := linked_paragraph; isFocused := true |}) = []
     ↔ forall x, x ∈ editorJsonToLinks linked_paragraph
                 ↔ x ∈ [JStr "https://a.example"]).
Proof.
  assert (NoDup [JStr "https://a.example"]) as H.
  { apply NoDup_singleton. }
  split; [exact H|].
  exact (onUpdate_same_links [JStr "https://a.example"]
           {| getJSON := linked_paragraph; isFocused := true |} H).
Defined.

(** ** The emitter over the life of the component *)

Lemma while_mounted_cases (e : EventEmitter) :
  while_mounted e ->
  e = [("publish", onPressPublish); ("photo-pasted", onPhotoPasted)]
  ∨ e = [("photo-pasted", onPhotoPasted); ("publish", onPressPublish)].
Proof.
  induction 1 as [|e _ [-> | ->]|e _ [-> | ->]]; auto.
Qed.

Lemma text_plain_branch_ext (P : Platform) (item : DataTransferItem)
    (cb cb' : string -> list effect) :
  (forall uri, cb uri = cb' uri) ->
  text_plain_branch P item cb = text_plain_branch P item cb'.
Proof.
  intros Hcb. unfold text_plain_branch, promise_then.
  repeat (case_match; try done).
Qed.

Lemma file_branch_ext (P : Platform) (item : DataTransferItem)
    (cb cb' : string -> list effect) :
  (forall uri, cb uri = cb' uri) ->
  file_branch P item cb = file_branch P item cb'.
Proof.
  intros Hcb. unfold file_branch, promise_then.
  repeat (case_match; try done).
Qed.

Lemma getImageFromUri_ext (P : Platform) (l : list DataTransferItem)
    (cb cb' : string -> list effect) :
  (forall uri, cb uri = cb' uri) ->
  getImageFromUri P l cb = getImageFromUri P l cb'.
Proof.
  intros Hcb. rewrite !getImageFromUri_concat. f_equal.
  apply map_ext. intros item.
  by rewrite (text_plain_branch_ext P item cb cb'),
    (file_branch_ext P item cb cb').
Qed.

(** X9: however often the two effects are re-run while the component is
    mounted, 'publish' has the one listener onPressPublish and
    'photo-pasted' the one listener onPhotoPasted, no other event has a
    listener, the handlers act as they do right after the mount, and the
    clean-ups leave the emitter without a listener. *)
Theorem while_mounted_one_listener (e : EventEmitter) :
  while_mounted e ->
  (forall args, emit e "publish" args = [Call onPressPublish args])
  ∧ (forall args, emit e "photo-pasted" args = [Call onPhotoPasted args])
  ∧ (forall event args,
       event ≠ "publish" -> event ≠ "photo-pasted" -> emit e event args = [])
  ∧ (forall event, handleKeyDown e event = handleKeyDown mounted event)
  ∧ (forall P event, handlePaste P e event = handlePaste P mounted event)
  ∧ unmount e = new_EventEmitter.
Proof.
  intros He.
  assert ((forall args, emit e "publish" args = [Call onPressPublish args])
          ∧ (forall args, emit e "photo-pasted" args = [Call onPhotoPasted args])
          ∧ (forall event args,
               event ≠ "publish" -> event ≠ "photo-pasted" ->
               emit e event args = [])
          ∧ unmount e = new_EventEmitter) as (Hpub & Hphoto & Hother & Hun).
  { destruct (while_mounted_cases e He) as [-> | ->].
    - do 2 (split; [done|]). split; [|done].
      intros event args Hp Hq. unfold emit. cbn.
      repeat case_decide; simpl in *; congruence.
    - do 2 (split; [done|]). split; [|done].
      intros event args Hp Hq. unfold emit. cbn.
      repeat case_decide; simpl in *; congruence. }
  do 3 (split; [done|]). split; [|split; [|done]].
  - intros event. unfold handleKeyDown.
    by rewrite Hpub, emit_mounted_publish.
  - intros P event. unfold handlePaste.
    destruct (clipboardData event) as [dt|]; [|done].
    apply getImageFromUri_ext. intros uri.
    by rewrite Hphoto, emit_mounted_photo_pasted.
Qed.

Lemma while_mounted_one_listener_witness :
  while_mounted (rerun_publish_effect mounted)
  ∧ unmount (rerun_publish_effect mounted) = new_EventEmitter.
Proof.
  assert (while_mounted (rerun_publish_effect mounted)) as H.
  { apply after_publish_rerun, after_mount. }
  split; [exact H|].
  exact (proj2 (proj2 (proj2 (proj2 (proj2
           (while_mounted_one_listener _ H)))))).
Defined.

(** ** What a paste calls *)

Lemma elem_of_text_plain_branch (P : Platform) (item : DataTransferItem)
    (cb : string -> list effect) (e : effect) :
  e ∈ text_plain_branch P item cb ↔
  DataTransferItem.type item = "text/plain"
  ∧ exists itemString blob,
      DataTransferItem.getAsString item = Some itemString
      ∧ isUriImage P itemString = true
      ∧ fetch_blob P itemString = Some blob
      ∧ e ∈ promise_then (blobToDataUri P blob) cb
              (fun err => [console_error err]).
Proof.
  unfold text_plain_branch. case_bool_decide as Htype.
  - destruct (DataTransferItem.getAsString item) as [itemString|].
    + destruct (isUriImage P itemString) eqn:Himg.
      * destruct (fetch_blob P itemString) as [blob|] eqn:Hfetch.
        { split.
          - intros He. split; [done|]. by exists itemString, blob.
          - intros (_ & ? & ? & [= <-] & _ & Hf & He). congruence. }
        rewrite elem_of_nil. split; [done|].
        intros (_ & ? & ? & [= <-] & _ & Hf & _). congruence.
      * rewrite elem_of_nil. split; [done|].
        intros (_ & ? & ? & [= <-] & Hi & _). congruence.
    + rewrite elem_of_nil. split; [done|]. by intros (_ & ? & ? & ? & _).
  - rewrite elem_of_nil. split; [done|]. by intros (? & _).
Qed.

Lemma elem_of_file_branch (P : Platform) (item : DataTransferItem)
    (cb : string -> list effect) (e : effect) :
  e ∈ file_branch P item cb ↔
  DataTransferItem.kind item = "file"
  ∧ exists file,
      DataTransferItem.getAsFile item = Some file
      ∧ e ∈ promise_then
              (blobToDataUri P (new_Blob file (DataTransferItem.type item)))
              cb (fun err => [console_error err]).
Proof.
  unfold file_branch. case_bool_decide as Hkind.
  - destruct (DataTransferItem.getAsFile item) as [file|].
    + split.
      * intros He. split; [done|]. by exists file.
      * by intros (_ & ? & [= <-] & He).
    + rewrite elem_of_nil. split; [done|]. by intros (_ & ? & ? & _).
  - rewrite elem_of_nil. split; [done|]. by intros (? & _).
Qed.

Lemma elem_of_getImageFromUri (P : Platform) (l : list DataTransferItem)
    (cb : string -> list effect) (e : effect) :
  e ∈ getImageFromUri P l cb ↔
  exists item, item ∈ l
    ∧ (e ∈ text_plain_branch P item cb ∨ e ∈ file_branch P item cb).
Proof.
  rewrite getImageFromUri_concat, list_elem_of_In, in_concat. split.
  - intros (tr & (item & <- & Hitem)%in_map_iff & He).
    exists item. split; [by apply list_elem_of_In|].
    by apply elem_of_app, list_elem_of_In.
  - intros (item & Hitem & He).
    exists (text_plain_branch P item cb ++ file_branch P item cb). split.
    + apply in_map_iff. exists item. split; [done|]. by apply list_elem_of_In.
    + by apply list_elem_of_In, elem_of_app.
Qed.

Lemma photo_of_promise (r : string + string) (uri : string) :
  Call onPhotoPasted [ArgString uri]
    ∈ promise_then r photo_pasted (fun err => [console_error err])
  ↔ r = inl uri.
Proof.
  destruct r as [uri'|err]; simpl.
  - unfold photo_pasted. rewrite emit_mounted_photo_pasted.
    rewrite list_elem_of_singleton. split; [by intros [= ->] | by intros [= ->]].
  - rewrite list_elem_of_singleton. split; discriminate.
Qed.

Lemma error_of_promise (r : string + string) (err : string) :
  console_error err
    ∈ promise_then r photo_pasted (fun err => [console_error err])
  ↔ r = inr err.
Proof.
  destruct r as [uri|err']; simpl.
  - unfold photo_pasted. rewrite emit_mounted_photo_pasted.
    rewrite list_elem_of_singleton. split; discriminate.
  - rewrite list_elem_of_singleton. split; [by intros [= ->] | by intros [= ->]].
Qed.

(** X10: onPhotoPasted is called with a URI exactly when the clipboard
    has an item of kind 'file' whose file is read as that URI, whatever the
    item's type and whatever isUriImage says, or an item of type
    'text/plain' whose string isUriImage recognises, and whose fetched
    blob is read as that URI. *)
Theorem handlePaste_photo_iff (P : Platform) (event : ClipboardEvent)
    (uri : string) :
  Call onPhotoPasted [ArgString uri] ∈ handlePaste P mounted event ↔
  exists dt item,
    clipboardData event = Some dt
    ∧ item ∈ items dt
    ∧ ((DataTransferItem.kind item = "file"
        ∧ exists file,
            DataTransferItem.getAsFile item = Some file
            ∧ blobToDataUri P (new_Blob file (DataTransferItem.type item))
              = inl uri)
       ∨ (DataTransferItem.type item = "text/plain"
          ∧ exists itemString blob,
              DataTransferItem.getAsString item = Some itemString
              ∧ isUriImage P itemString = true
              ∧ fetch_blob P itemString = Some blob
              ∧ blobToDataUri P blob = inl uri)).
Proof.
  unfold handlePaste. destruct (clipboardData event) as [dt|].
  - fold photo_pasted. rewrite elem_of_getImageFromUri. split.
    + intros (item & Hitem & [He|He]); exists dt, item;
        (split; [done|]); (split; [done|]).
      * right. apply elem_of_text_plain_branch in He
          as (Htype & s & blob & Hs & Himg & Hfetch & He).
        split; [done|]. exists s, blob. by rewrite <- photo_of_promise.
      * left. apply elem_of_file_branch in He as (Hkind & file & Hfile & He).
        split; [done|]. exists file. by rewrite <- photo_of_promise.
    + intros (? & item & [= <-] & Hitem & [(Hkind & file & Hfile & Hread)
                 |(Htype & s & blob & Hs & Himg & Hfetch & Hread)]);
        exists item; (split; [done|]).
      * right. apply elem_of_file_branch. split; [done|]. exists file.
        by rewrite photo_of_promise.
      * left. apply elem_of_text_plain_branch. split; [done|].
        exists s, blob. by rewrite photo_of_promise.
  - rewrite elem_of_nil. split; [done|]. by intros (? & ? & ? & _).
Qed.

(** X11: a paste writes an error to the console exactly when reading a
    blob as a data URI fails with that error, for a file or for the blob
    fetched for a recognised string; a string that is not recognised and a
    fetch that fails leave no trace. *)
Theorem handlePaste_error_iff (P : Platform) (event : ClipboardEvent)
    (err : string) :
  console_error err ∈ handlePaste P mounted event ↔
  exists dt item,
    clipboardData event = Some dt
    ∧ item ∈ items dt
    ∧ ((DataTransferItem.kind item = "file"
        ∧ exists file,
            DataTransferItem.getAsFile item = Some file
            ∧ blobToDataUri P (new_Blob file (DataTransferItem.type item))
              = inr err)
       ∨ (DataTransferItem.type item = "text/plain"
          ∧ exists itemString blob,
              DataTransferItem.getAsString item = Some itemString
              ∧ isUriImage P itemString = true
              ∧ fetch_blob P itemString = Some blob
              ∧ blobToDataUri P blob = inr err)).
Proof.
  unfold handlePaste. destruct (clipboardData event) as [dt|].
  - fold photo_pasted. rewrite elem_of_getImageFromUri. split.
    + intros (item & Hitem & [He|He]); exists dt, item;
        (split; [done|]); (split; [done|]).
      * right. apply elem_of_text_plain_branch in He
          as (Htype & s & blob & Hs & Himg & Hfetch & He).
        split; [done|]. exists s, blob. by rewrite <- error_of_promise.
      * left. apply elem_of_file_branch in He as (Hkind & file & Hfile & He).
        split; [done|]. exists file. by rewrite <- error_of_promise.
    + intros (? & item & [= <-] & Hitem & [(Hkind & file & Hfile & Hread)
                 |(Htype & s & blob & Hs & Himg & Hfetch & Hread)]);
        exists item; (split; [done|]).
      * right. apply elem_of_file_branch. split; [done|]. exists file.
        by rewrite error_of_promise.
      * left. apply elem_of_text_plain_branch. split; [done|].
        exists s, blob. by rewrite error_of_promise.
  - rewrite elem_of_nil. split; [done|]. by intros (? & ? & ? & _).
Qed.

(** X12: a paste calls no prop but onPhotoPasted, and gives it one
    argument, a string; everything else it does is an error written to
    the console. *)
Theorem handlePaste_only_photo_or_error (P : Platform) (event : ClipboardEvent) :
  Forall (fun e => (exists uri, e = Call onPhotoPasted [ArgString uri])
                   ∨ (exists err, e = console_error err))
    (handlePaste P mounted event).
Proof.
  apply Forall_forall. intros e. unfold handlePaste.
  destruct (clipboardData event) as [dt|]; [|by intros ?%elem_of_nil].
  fold photo_pasted.
  assert (forall r, e ∈ promise_then r photo_pasted
                          (fun err => [console_error err]) ->
                    (exists uri, e = Call onPhotoPasted [ArgString uri])
                    ∨ (exists err, e = console_error err)) as Hpromise.
  { intros [uri|err]; simpl.
    - unfold photo_pasted. rewrite emit_mounted_photo_pasted.
      intros ->%list_elem_of_singleton. left. by exists uri.
    - intros ->%list_elem_of_singleton. right. by exists err. }
  intros (item & _ & [He|He])%elem_of_getImageFromUri.
  - apply elem_of_text_plain_branch in He as (_ & s & blob & _ & _ & _ & He).
    by eapply Hpromise.
  - apply elem_of_file_branch in He as (_ & file & _ & He).
    by eapply Hpromise.
Qed.

Lemma text_plain_branch_length (P : Platform) (item : DataTransferItem) :
  length (text_plain_branch P item photo_pasted) ≤ 1.
Proof.
  unfold text_plain_branch, promise_then.
  repeat (case_match; simpl; try lia).
Qed.

Lemma file_branch_length (P : Platform) (item : DataTransferItem) :
  length (file_branch P item photo_pasted) ≤ 1.
Proof.
  unfold file_branch, promise_then.
  repeat (case_match; simpl; try lia).
Qed.

Lemma browser_item_one_branch (P : Platform) (item : DataTransferItem) :
  browser_item item ->
  length (text_plain_branch P item photo_pasted
          ++ file_branch P item photo_pasted) ≤ 1.
Proof.
  intros [Hstring Hfile]. rewrite length_app.
  pose proof (text_plain_branch_length P item) as Htext.
  pose proof (file_branch_length P item) as Hlen.
  destruct (DataTransferItem.getAsString item) as [s|] eqn:Hs.
  - assert (file_branch P item photo_pasted = []) as ->; [|simpl; lia].
    unfold file_branch. case_bool_decide as Hkind; [|done].
    rewrite Hstring in Hkind by done. discriminate.
  - assert (text_plain_branch P item photo_pasted = []) as ->; [|simpl; lia].
    unfold text_plain_branch. rewrite Hs. by case_bool_decide.
Qed.

(** X13: a paste makes at most two calls for each clipboard item, and at
    most one for each when the items are as a browser builds them. *)
Theorem handlePaste_at_most (P : Platform) (event : ClipboardEvent)
    (dt : DataTransfer) :
  clipboardData event = Some dt ->
  length (handlePaste P mounted event) ≤ 2 * length (items dt)
  ∧ (Forall browser_item (items dt) ->
     length (handlePaste P mounted event) ≤ length (items dt)).
Proof.
  intros Hdt. unfold handlePaste. rewrite Hdt. fold photo_pasted.
  rewrite getImageFromUri_concat. split.
  - induction (items dt) as [|item l IH]; simpl; [lia|].
    rewrite !length_app.
    pose proof (text_plain_branch_length P item).
    pose proof (file_branch_length P item). lia.
  - induction 1 as [|item l Hitem _ IH]; simpl; [lia|].
    rewrite length_app.
    pose proof (browser_item_one_branch P item Hitem). lia.
Qed.

Lemma handlePaste_at_most_witness :
  length (handlePaste working_reader mounted paste_string) ≤ 1.
Proof.
  apply (proj2 (handlePaste_at_most working_reader paste_string
                  {| items := items (default {| items := [] |}
                                       (clipboardData paste_string)) |}
                  eq_refl)).
  repeat constructor; simpl; intros [x Hx]; discriminate.
Defined.

Lemma calls_of_console (f : prop) (tr : list effect) :
  Forall (fun e => exists err, e = console_error err) tr ->
  calls_of f tr = [].
Proof.
  induction 1 as [|e tr [err ->] _ IH]; [done|]. exact IH.
Qed.

(** X14: an event that reaches the handlers while the emitter has no
    listener, before the effects have run or after their clean-ups, is
    dropped: a key press calls nothing and a paste calls no prop. *)
Theorem events_without_listener (P : Platform) (e : EventEmitter) :
  e = new_EventEmitter ∨ (exists e', while_mounted e' ∧ e = unmount e') ->
  forall (key : KeyboardEvent) (paste : ClipboardEvent) (f : prop),
    handleKeyDown e key = []
    ∧ calls_of f (handlePaste P e paste) = [].
Proof.
  intros He key paste f.
  assert (e = []) as ->.
  { destruct He as [->|(e' & [-> | ->]%while_mounted_cases & ->)]; done. }
  split.
  - unfold handleKeyDown. by case_match.
  - apply calls_of_console, Forall_forall. intros x. unfold handlePaste.
    destruct (clipboardData paste) as [dt|]; [|by intros ?%elem_of_nil].
    assert (forall r, x ∈ promise_then r
                            (fun uri => emit [] "photo-pasted" [ArgString uri])
                            (fun err => [console_error err]) ->
                      exists err, x = console_error err) as Hpromise.
    { intros [uri|err]; simpl; [by intros ?%elem_of_nil|].
      intros ->%list_elem_of_singleton. by exists err. }
    intros (item & _ & [Hx|Hx])%elem_of_getImageFromUri.
    + apply elem_of_text_plain_branch in Hx as (_ & s & blob & _ & _ & _ & Hx).
      by eapply Hpromise.
    + apply elem_of_file_branch in Hx as (_ & file & _ & Hx).
      by eapply Hpromise.
Qed.

Lemma events_without_listener_witness :
  handleKeyDown (unmount mounted)
    {| metaKey := true; ctrlKey := false; code := "Enter" |} = []
  ∧ calls_of onPhotoPasted
      (handlePaste working_reader (unmount mounted) paste_image_file) = [].
Proof.
  apply (events_without_listener working_reader (unmount mounted)).
  right. exists mounted. split; [apply after_mount | reflexivity].
Defined.

(** ** Updates over the renders *)




